(** * Shallow embedding of src/src/main.py (genai-code-review)

    The review pipeline of [main.py]: the file filter of
    [analyze_commit_files], the diff segmentation of [analyze_patch], the
    prompt builder [create_review_prompt], and the two orchestrators
    [process_files] / [process_patch] with the GitHub and OpenAI clients
    as oracles whose calls are recorded in a trace.

    Characters are modelled as [ascii] (code points 0..255); Python [str]
    values are [string]. *)

From Stdlib Require Import String Ascii List Bool Arith Lia.
Import ListNotations.
Open Scope list_scope.
Open Scope string_scope.

(** ** Character and string helpers *)

(** The newline character (Python ["\n"]). *)
Definition nl_char : ascii := ascii_of_nat 10%nat.
Definition nl : string := String nl_char EmptyString.

(** Python [str.isspace] on code points 0..255: [\t \n \v \f \r],
    [\x1c]..[\x1f], space, [\x85] and [\xa0]. *)
Definition is_ws (c : ascii) : bool :=
  let n := nat_of_ascii c in
  (((9 <=? n) && (n <=? 13)) || ((28 <=? n) && (n <=? 32))
   || (n =? 133) || (n =? 160))%nat.

(** Every character of the string is whitespace. *)
Fixpoint all_ws (s : string) : bool :=
  match s with
  | EmptyString => true
  | String c t => is_ws c && all_ws t
  end.

(** [str.lstrip()] *)
Fixpoint lstrip (s : string) : string :=
  match s with
  | EmptyString => EmptyString
  | String c t => if is_ws c then lstrip t else s
  end.

(** [str.rstrip()] *)
Fixpoint rstrip (s : string) : string :=
  match s with
  | EmptyString => EmptyString
  | String c t =>
      let t' := rstrip t in
      if is_ws c && (t' =? EmptyString) then EmptyString else String c t'
  end.

(** [str.strip()] *)
Definition strip (s : string) : string := rstrip (lstrip s).

(** [s[n:]] *)
Fixpoint drop (n : nat) (s : string) : string :=
  match n, s with
  | O, _ => s
  | S _, EmptyString => EmptyString
  | S k, String _ t => drop k t
  end.

(** The rest of the current line: the longest prefix without a newline
    (what a run of the regex [.] matches). *)
Fixpoint line_of (s : string) : string :=
  match s with
  | EmptyString => EmptyString
  | String c t => if Ascii.eqb c nl_char then EmptyString else String c (line_of t)
  end.

(** ** Diff segmentation: [re.split(r'(?=^diff --git )', patch, flags=re.MULTILINE)]

    The zero-width pattern matches at every position that is at a line
    start (position 0 or just after a newline) and is followed by
    ["diff --git "]; Python (3.7+) splits at each such position, so a
    match at position 0 yields a leading empty piece. [at_start] records
    whether the current position is a line start; [cur] is the piece being
    built. *)
Definition diff_marker : string := "diff --git ".

Fixpoint split_go (at_start : bool) (s cur : string) : list string :=
  match s with
  | EmptyString => [cur]
  | String c t =>
      if at_start && prefix diff_marker s
      then cur :: split_go (Ascii.eqb c nl_char) t (String c EmptyString)
      else split_go (Ascii.eqb c nl_char) t (cur ++ String c EmptyString)
  end.

Definition split_patch (patch : string) : list string := split_go true patch EmptyString.

(** ** Filename extraction: [re.search(r'^diff --git a\/.+ b\/(.+)', diff_text, re.MULTILINE)]

    At a line start followed by ["diff --git a/"], let [L] be the rest of
    that line. The greedy first [.+] backtracks from the end of [L], so the
    match uses the last index [j >= 1] of [L] where [" b/"] occurs with at
    least one character after it; group 1 is [L] from [j+3] to the end of
    the line. Positions are tried left to right. *)
Definition header_prefix : string := "diff --git a/".
Definition b_marker : string := " b/".

(** Last occurrence (index [>= 0]) of [" b/"] followed by a non-empty
    rest; returns that rest. *)
Fixpoint last_b (l : string) : option string :=
  match l with
  | EmptyString => None
  | String _ t =>
      match last_b t with
      | Some g => Some g
      | None =>
          if prefix b_marker l && (3 <? String.length l)%nat then Some (drop 3%nat l) else None
      end
  end.

(** The first [.+] consumes at least one character, so the occurrence
    starts at index [>= 1] of the line rest. *)
Definition dest_of (l : string) : option string :=
  match l with
  | EmptyString => None
  | String _ t => last_b t
  end.

Fixpoint search_header (at_start : bool) (s : string) : option string :=
  match s with
  | EmptyString => None
  | String c t =>
      match (if at_start && prefix header_prefix s
             then dest_of (line_of (drop 13%nat s)) else None) with
      | Some g => Some g
      | None => search_header (Ascii.eqb c nl_char) t
      end
  end.

Definition unknown_file : string := "Unknown file".

(** [file_name = match.group(1) if match else "Unknown file"] *)
Definition file_name_of (diff_text : string) : string :=
  match search_header true diff_text with
  | Some g => g
  | None => unknown_file
  end.

(** One iteration of the loop of [analyze_patch]:
    [combined_diff += f"\n### File: {file_name}\n```diff\n{diff_text.strip()}```\n"]
    when [diff_text.strip()] is non-empty. The [try] body only does string
    and regex operations on a [str], so its [except] branch is never
    taken. *)
Definition render_diff (file_name body : string) : string :=
  nl ++ "### File: " ++ file_name ++ nl ++ "```diff" ++ nl ++ body ++ "```" ++ nl.

Fixpoint combine_diffs (combined : string) (file_diffs : list string) : string :=
  match file_diffs with
  | [] => combined
  | diff_text :: rest =>
      if negb (strip diff_text =? EmptyString)
      then combine_diffs (combined ++ render_diff (file_name_of diff_text) (strip diff_text)) rest
      else combine_diffs combined rest
  end.

(** The retained segments, as (filename, trimmed body) pairs in order. *)
Definition segments (patch : string) : list (string * string) :=
  map (fun d => (file_name_of d, strip d))
      (filter (fun d => negb (strip d =? EmptyString)) (split_patch patch)).

(** A line of [s] (at a line start) begins with ["diff --git "]. *)
Fixpoint has_header_line (at_start : bool) (s : string) : bool :=
  match s with
  | EmptyString => false
  | String c t => (at_start && prefix diff_marker s) || has_header_line (Ascii.eqb c nl_char) t
  end.

(** Whether the position after [s] is a line start, when the position
    before it is one iff [at_start]. *)
Fixpoint after_state (at_start : bool) (s : string) : bool :=
  match s with
  | EmptyString => at_start
  | String c t => after_state (Ascii.eqb c nl_char) t
  end.

(** The lines of [s], each without its newline (the empty rest after a
    final newline is not listed); [at_start] as for [has_header_line]. *)
Fixpoint lines_from (at_start : bool) (s : string) : list string :=
  match s with
  | EmptyString => []
  | String c t =>
      if at_start then line_of s :: lines_from (Ascii.eqb c nl_char) t
      else lines_from (Ascii.eqb c nl_char) t
  end.

Definition lines_of (s : string) : list string := lines_from true s.

(** A line carries a destination token when it reads
    [diff --git a/P b/Q] with [P] and [Q] non-empty: the header regex
    can match it. *)
Definition carries_token (l : string) : Prop :=
  exists p q, p <> EmptyString /\ q <> EmptyString /\ l = header_prefix ++ p ++ b_marker ++ q.

(** ** File filter of [analyze_commit_files]

    [if include_regex: files = [f for f in files if re.search(include_regex, f.filename)]]
    [if exclude_regex: files = [f for f in files if not re.search(exclude_regex, f.filename)]]

    Python's [re] is a parameter: [re_search pat s] is [Some true] when
    [re.search(pat, s)] finds a match, [Some false] when it returns
    [None], and [None] when it raises [re.error] (malformed pattern). *)
Record FileChange := mkFileChange { filename : string; status : string }.

(** Python truthiness of an optional string ([None] and [''] are falsy). *)
Definition truthy (o : option string) : option string :=
  match o with
  | Some p => if p =? EmptyString then None else Some p
  | None => None
  end.

Section Filter.
Variable re_search : string -> string -> option bool.

(** One list comprehension; [keep] is [id] for include, [negb] for exclude.
    An exception raised by [re.search] propagates ([None]). *)
Fixpoint keep_matching (keep : bool -> bool) (pat : string) (files : list FileChange)
  : option (list FileChange) :=
  match files with
  | [] => Some []
  | f :: fs =>
      match re_search pat (filename f) with
      | None => None
      | Some m =>
          match keep_matching keep pat fs with
          | None => None
          | Some r => Some (if keep m then f :: r else r)
          end
      end
  end.

Definition filter_files (include_regex exclude_regex : option string)
  (files : list FileChange) : option (list FileChange) :=
  match (match truthy include_regex with
         | Some p => keep_matching (fun m => m) p files
         | None => Some files
         end) with
  | None => None
  | Some files1 =>
      match truthy exclude_regex with
      | Some p => keep_matching negb p files1
      | None => Some files1
      end
  end.

(** A file passes one comprehension: its search succeeds and is kept. *)
Definition passes (keep : bool -> bool) (pat : string) (f : FileChange) : Prop :=
  exists m, re_search pat (filename f) = Some m /\ keep m = true.

End Filter.

(** ** Prompt builder: [create_review_prompt(content, language, custom_prompt=None)] *)
Definition create_review_prompt (content language : string) (custom_prompt : option string)
  : string :=
  match truthy custom_prompt with
  | Some cp =>
      cp ++ nl ++
      "### Code" ++ nl ++
      "```" ++ content ++ "```" ++ nl ++ nl ++
      "Write this code review in the following " ++ language ++ ":" ++ nl ++ nl
  | None =>
      "Please review the following code for clarity, efficiency, and adherence to best practices." ++
      "Identify any areas for improvement, suggest specific optimizations, and note potential bugs or security vulnerabilities. " ++
      "Additionally, provide suggestions for how to address the identified issues, with a focus on maintainability and scalability. " ++
      "Include examples of code where relevant. Use markdown formatting for your response:" ++ nl ++ nl ++
      "Write this code review in the following " ++ language ++ ":" ++ nl ++ nl ++
      "Do not write the code or guidelines in the review. Only write the review itself." ++ nl ++ nl ++
      "### Code" ++ nl ++ "```" ++ content ++ "```" ++ nl ++ nl ++
      "### Review Guidelines" ++ nl ++
      "1. **Clarity**: Is the code easy to understand?" ++ nl ++
      "2. **Efficiency**: Are there any performance improvements?" ++ nl ++
      "3. **Best Practices**: Does the code follow standard coding conventions?" ++ nl ++
      "4. **Bugs/Security**: Are there any potential bugs or security vulnerabilities?" ++ nl ++
      "5. **Maintainability**: Is the code easy to maintain and scale?" ++ nl ++ nl ++
      "### Review Example" ++ nl ++
      "1. **Issue**: The variable names are not descriptive." ++ nl ++
      "   **Suggestion**: Use more descriptive variable names that reflect their purpose. For example:" ++ nl ++
      "   ```python" ++ nl ++
      "   # Instead of this:" ++ nl ++
      "   x = 5" ++ nl ++
      "   # Use this:" ++ nl ++
      "   item_count = 5" ++ nl ++
      "   ```" ++ nl ++
      "2. **Issue**: There is a potential SQL injection vulnerability." ++ nl ++
      "   **Suggestion**: Use parameterized queries to prevent SQL injection. For example:" ++ nl ++
      "   ```python" ++ nl ++
      "   # Instead of this:" ++ nl ++
      "   cursor.execute(f'SELECT * FROM users WHERE username = (username)')" ++ nl ++
      "   # Use this:" ++ nl ++
      "   cursor.execute('SELECT * FROM users WHERE username = %s', (username,))" ++ nl ++
      "   ```"
  end.

(** ** Orchestration: the GitHub and OpenAI clients as oracles

    Each client call is an event appended to the trace. Exceptions are the
    [Raised] outcome, which keeps the trace up to the failing call; a
    Python [try]/[except] is [try_except]. *)
Inductive event :=
| GetPr (pr_id : nat)
| GetCommits (pr_id : nat)
| GetCommitFiles (sha : string)
| GetFileContent (sha fname : string)
| GetPrPatch (pr_id : nat)
| GenerateResponse (prompt : string)
| PostComment (pr_id : nat) (body : string).

(** What the GitHub client answers: the commits of the pull request (in
    order), the changed files of a commit, the content of a file at a
    commit ([None]: the fetch raises), and the pull request's patch. *)
Record github := mkGithub {
  pr_commits : list string;
  commit_files : string -> list FileChange;
  file_content : string -> string -> option string;
  pr_patch : string }.

Inductive outcome (A : Type) :=
| Ok (a : A) (trace : list event)
| Raised (trace : list event).
Arguments Ok {A}. Arguments Raised {A}.

Definition M (A : Type) := list event -> outcome A.

Definition ret {A} (a : A) : M A := fun tr => Ok a tr.
Definition raise {A} : M A := fun tr => Raised tr.
Definition bind {A B} (m : M A) (k : A -> M B) : M B :=
  fun tr => match m tr with Ok a tr' => k a tr' | Raised tr' => Raised tr' end.
Definition try_except {A} (m : M A) (handler : M A) : M A :=
  fun tr => match m tr with Ok a tr' => Ok a tr' | Raised tr' => handler tr' end.
Definition call (e : event) : M unit := fun tr => Ok tt (tr ++ [e])%list.

Notation "x <- m ;; k" := (bind m (fun x => k))
  (at level 61, m at next level, right associativity).

Definition trace_of {A} (o : outcome A) : list event :=
  match o with Ok _ tr => tr | Raised tr => tr end.

(** [f"\n### File: {file.filename}\n```{content}```\n"] *)
Definition render_file (fname content : string) : string :=
  nl ++ "### File: " ++ fname ++ nl ++ "```" ++ content ++ "```" ++ nl.

(** [f"ChatGPT's code review:\n {review}"] *)
Definition review_comment (review : string) : string :=
  "ChatGPT's code review:" ++ nl ++ " " ++ review.

Definition no_changes_comment : string := "Patch file does not contain any changes".

Section Pipeline.
Variable re_search : string -> string -> option bool.
Variable gh : github.
(** [openai_client.generate_response]: [None] is a service error. *)
Variable generate : string -> option string.

Definition get_pr_commits (pr_id : nat) : M (list string) :=
  _ <- call (GetPr pr_id) ;; _ <- call (GetCommits pr_id) ;; ret (pr_commits gh).

Definition get_commit_files (sha : string) : M (list FileChange) :=
  _ <- call (GetCommitFiles sha) ;; ret (commit_files gh sha).

Definition get_file_content (sha fname : string) : M string :=
  _ <- call (GetFileContent sha fname) ;;
  match file_content gh sha fname with Some c => ret c | None => raise end.

Definition get_pr_patch (pr_id : nat) : M string :=
  _ <- call (GetPrPatch pr_id) ;; ret (pr_patch gh).

Definition generate_response (prompt : string) : M string :=
  _ <- call (GenerateResponse prompt) ;;
  match generate prompt with Some r => ret r | None => raise end.

Definition post_comment (pr_id : nat) (body : string) : M unit :=
  call (PostComment pr_id body).

(** The [for file in files] loop with its bare [try]/[except]. *)
Fixpoint collect_files (sha : string) (files : list FileChange) (combined : string)
  : M string :=
  match files with
  | [] => ret combined
  | file :: rest =>
      combined' <- try_except
                     (content <- get_file_content sha (filename file) ;;
                      ret (combined ++ render_file (filename file) content))
                     (ret combined) ;;
      collect_files sha rest combined'
  end.

Definition analyze_commit_files (pr_id : nat) (sha language : string)
  (custom_prompt include_regex exclude_regex : option string) : M unit :=
  files <- get_commit_files sha ;;
  files <- (match filter_files re_search include_regex exclude_regex files with
            | Some fs => ret fs
            | None => raise
            end) ;;
  combined_content <- collect_files sha files EmptyString ;;
  review <- generate_response (create_review_prompt combined_content language custom_prompt) ;;
  post_comment pr_id (review_comment review).

Definition process_files (pr_id : nat) (language : string)
  (custom_prompt include_regex exclude_regex : option string) : M unit :=
  commits <- get_pr_commits pr_id ;;
  match commits with
  | [] => ret tt
  | _ => analyze_commit_files pr_id (last commits EmptyString) language
           custom_prompt include_regex exclude_regex
  end.

Definition analyze_patch (pr_id : nat) (patch_content language : string)
  (custom_prompt : option string) : M unit :=
  let combined_diff := combine_diffs EmptyString (split_patch patch_content) in
  summary <- generate_response (create_review_prompt combined_diff language custom_prompt) ;;
  post_comment pr_id (review_comment summary).

Definition process_patch (pr_id : nat) (language : string) (custom_prompt : option string)
  : M unit :=
  patch_content <- get_pr_patch pr_id ;;
  if patch_content =? EmptyString
  then post_comment pr_id no_changes_comment
  else analyze_patch pr_id patch_content language custom_prompt.

(** The dispatch of [main] on [MODE]. *)
Definition run_mode (mode : string) (pr_id : nat) (language : string)
  (custom_prompt include_regex exclude_regex : option string) : M unit :=
  if mode =? "files" then process_files pr_id language custom_prompt include_regex exclude_regex
  else if mode =? "patch" then process_patch pr_id language custom_prompt
  else raise.

End Pipeline.

Definition is_generate (e : event) : bool :=
  match e with GenerateResponse _ => true | _ => false end.

(** Number of calls to the completion service in a trace. *)
Definition count_generate (tr : list event) : nat := length (filter is_generate tr).

(** The text [collect_files] contributes for one file: its rendered
    section when the fetch succeeds, nothing when it raises. *)
Definition file_section (gh : github) (sha : string) (f : FileChange) : string :=
  match file_content gh sha (filename f) with
  | Some c => render_file (filename f) c
  | None => EmptyString
  end.

(** Concatenation of a list of strings ([''.join(pieces)]). *)
Fixpoint cat (pieces : list string) : string :=
  match pieces with
  | [] => EmptyString
  | p :: ps => p ++ cat ps
  end.

(** [g0 ++ b1 ++ g1 ++ ... ++ bn ++ gn]: bodies interleaved with gaps. *)
Fixpoint weave (gaps bodies : list string) : string :=
  match gaps, bodies with
  | [], _ => EmptyString
  | g :: _, [] => g
  | g :: gs, b :: bs => g ++ b ++ weave gs bs
  end.

(** [pat in s] for string [s]. *)
Fixpoint contains (pat s : string) : bool :=
  match s with
  | EmptyString => pat =? EmptyString
  | String _ t => prefix pat s || contains pat t
  end.

(** [l1] is a subsequence of [l2]: obtained by deleting elements, order kept. *)
Inductive subseq {A : Type} : list A -> list A -> Prop :=
| subseq_nil : subseq [] []
| subseq_skip x l1 l2 : subseq l1 l2 -> subseq l1 (x :: l2)
| subseq_take x l1 l2 : subseq l1 l2 -> subseq (x :: l1) (x :: l2).

Definition is_post (e : event) : bool :=
  match e with PostComment _ _ => true | _ => false end.

(** Number of comments posted on the pull request in a trace. *)
Definition count_post (tr : list event) : nat := length (filter is_post tr).

(** The events Patch-Mode may produce. *)
Definition patch_mode_event (e : event) : bool :=
  match e with GetPrPatch _ | GenerateResponse _ | PostComment _ _ => true | _ => false end.

(** ** Concrete inputs used by the examples below *)

(** An engine standing for Python's [re] on the malformed pattern ["["]:
    [re.search("[", s)] raises [re.error] (unterminated character set). *)
Definition bracket_engine (pat s : string) : option bool :=
  if pat =? "[" then None else Some true.

Definition gh_one_file : github :=
  mkGithub ["c1"] (fun _ => [mkFileChange "a.py" "modified"]) (fun _ _ => Some "x = 1") EmptyString.

(** A search engine for patterns without metacharacters: [re.search]
    then finds the pattern as a substring. *)
Definition literal_search (pat s : string) : option bool :=
  Some (contains pat s).

(** [re.search] for literal patterns, raising on the malformed ["["]. *)
Definition bracket_literal_engine (pat s : string) : option bool :=
  if pat =? "[" then None else literal_search pat s.

Definition patch_two : string :=
  "diff --git a/x.py b/x.py" ++ nl ++ "+print(1)" ++ nl
  ++ "diff --git garbage" ++ nl ++ "+y" ++ nl.

Definition gh_no_commits : github :=
  mkGithub [] (fun _ => [mkFileChange "a.py" "modified"]) (fun _ _ => Some "x = 1") "p".

Definition gh_fetch_fails : github :=
  mkGithub ["c0"; "c1"] (fun _ => [mkFileChange "a.py" "added"; mkFileChange "b.md" "added"])
           (fun _ _ => None) EmptyString.

Definition gh_blank_patch : github :=
  mkGithub [] (fun _ => []) (fun _ _ => None) (" " ++ nl).

(** ** Generic string lemmas *)

Lemma append_nil_r (s : string) : s ++ EmptyString = s.
Proof. induction s as [|c t IH]; simpl; [reflexivity | now rewrite IH]. Qed.

Lemma append_assoc (x y z : string) : (x ++ y) ++ z = x ++ (y ++ z).
Proof. induction x as [|c t IH]; simpl; [reflexivity | now rewrite IH]. Qed.

Lemma prefix_app (x y : string) : prefix x (x ++ y) = true.
Proof.
  induction x as [|c t IH]; simpl; [destruct y; reflexivity|].
  destruct (ascii_dec c c) as [_|n]; [exact IH | now elim n].
Qed.

Lemma prefix_app_l (x y s : string) : prefix (x ++ y) s = true -> prefix x s = true.
Proof.
  revert s; induction x as [|c t IH]; intros s H; simpl in *.
  - destruct s; reflexivity.
  - destruct s as [|d u]; [discriminate|]. simpl in *.
    destruct (ascii_dec c d); [now apply (IH u) | discriminate].
Qed.

Lemma drop_app (x y : string) : drop (String.length x) (x ++ y) = y.
Proof. induction x as [|c t IH]; simpl; [reflexivity | exact IH]. Qed.

Lemma line_of_app (x y : string) : line_of x = x -> line_of (x ++ y) = x ++ line_of y.
Proof.
  induction x as [|c t IH]; simpl; intros H; [reflexivity|].
  destruct (Ascii.eqb c nl_char); [discriminate|].
  injection H as H. now rewrite IH.
Qed.

Lemma all_ws_app (x y : string) : all_ws (x ++ y) = all_ws x && all_ws y.
Proof. induction x as [|c t IH]; simpl; [reflexivity | now rewrite IH, andb_assoc]. Qed.

(** ** Segmentation is a partition of the patch *)

Lemma split_go_cons (b : bool) (c : ascii) (t cur : string) :
  split_go b (String c t) cur =
  if b && prefix diff_marker (String c t)
  then cur :: split_go (Ascii.eqb c nl_char) t (String c EmptyString)
  else split_go (Ascii.eqb c nl_char) t (cur ++ String c EmptyString).
Proof. reflexivity. Qed.

Lemma split_go_cat (s cur : string) (b : bool) : cat (split_go b s cur) = cur ++ s.
Proof.
  revert b cur; induction s as [|c t IH]; intros b cur.
  - simpl. now rewrite append_nil_r.
  - rewrite split_go_cons. destruct (b && prefix diff_marker (String c t)).
    + simpl. now rewrite IH.
    + rewrite IH, append_assoc. reflexivity.
Qed.

Lemma split_patch_cat (patch : string) : cat (split_patch patch) = patch.
Proof. apply split_go_cat. Qed.

(** [str.lstrip] removes a whitespace prefix. *)
Lemma lstrip_spec (s : string) : exists l, s = l ++ lstrip s /\ all_ws l = true.
Proof.
  induction s as [|c t [l [Hl Hw]]]; simpl.
  - now exists EmptyString.
  - destruct (is_ws c) eqn:Hc.
    + exists (String c l). simpl. rewrite Hc, Hw. split; [now rewrite <- Hl | reflexivity].
    + now exists EmptyString.
Qed.

(** [str.rstrip] removes a whitespace suffix. *)
Lemma rstrip_spec (s : string) : exists r, s = rstrip s ++ r /\ all_ws r = true.
Proof.
  induction s as [|c t [r [Hr Hw]]]; simpl.
  - now exists EmptyString.
  - destruct (is_ws c && (rstrip t =? EmptyString)) eqn:Hc.
    + apply andb_prop in Hc as [Hc He]. apply String.eqb_eq in He.
      exists (String c t). simpl. rewrite Hc. split; [reflexivity|].
      rewrite Hr, He. simpl. exact Hw.
    + exists r. simpl. split; [now rewrite <- Hr | exact Hw].
Qed.

(** [s.strip()] is [s] without a whitespace prefix and suffix. *)
Lemma strip_spec (s : string) :
  exists l r, s = l ++ strip s ++ r /\ all_ws l = true /\ all_ws r = true.
Proof.
  destruct (lstrip_spec s) as [l [Hl Hwl]].
  destruct (rstrip_spec (lstrip s)) as [r [Hr Hwr]].
  exists l, r. unfold strip. rewrite <- Hr. auto.
Qed.

Lemma strip_empty_all_ws (s : string) : strip s = EmptyString -> all_ws s = true.
Proof.
  intros He. destruct (strip_spec s) as [l [r [Hs [Hl Hr]]]].
  rewrite He in Hs. simpl in Hs. rewrite Hs, all_ws_app, Hl, Hr. reflexivity.
Qed.

Lemma weave_cons (g b : string) (gs bs : list string) :
  weave (g :: gs) (b :: bs) = g ++ b ++ weave gs bs.
Proof. reflexivity. Qed.

Lemma weave_head (x g : string) (gs bs : list string) :
  weave ((x ++ g) :: gs) bs = x ++ weave (g :: gs) bs.
Proof. destruct bs; simpl; [reflexivity | now rewrite append_assoc]. Qed.

Lemma cat_weave (ds : list string) :
  exists gaps,
    length gaps = S (length (map strip (filter (fun d => negb (strip d =? EmptyString)) ds)))
    /\ Forall (fun g => all_ws g = true) gaps
    /\ cat ds = weave gaps (map strip (filter (fun d => negb (strip d =? EmptyString)) ds)).
Proof.
  induction ds as [|d ds [gaps [Hlen [Hws Heq]]]]; simpl.
  - exists [EmptyString]. repeat split; auto.
  - destruct gaps as [|g0 gs]; [discriminate|].
    destruct (strip d =? EmptyString) eqn:Hd; simpl.
    + apply String.eqb_eq, strip_empty_all_ws in Hd.
      exists ((d ++ g0) :: gs). inversion Hws; subst.
      split; [exact Hlen|]. split.
      * constructor; [now rewrite all_ws_app, Hd | assumption].
      * now rewrite weave_head, Heq.
    + destruct (strip_spec d) as [l [r [Hs [Hl Hr]]]].
      exists (l :: (r ++ g0) :: gs). inversion Hws; subst.
      split; [simpl in *; lia|]. split.
      * repeat constructor; auto. now rewrite all_ws_app, Hr.
      * rewrite weave_cons, weave_head, <- Heq. rewrite Hs at 1.
        now rewrite !append_assoc.
Qed.

(** ** Filename extraction *)

Lemma last_b_cons (c : ascii) (t : string) :
  last_b (String c t) =
  match last_b t with
  | Some g => Some g
  | None => if prefix b_marker (String c t) && (3 <? String.length (String c t))%nat
            then Some (drop 3%nat (String c t)) else None
  end.
Proof. reflexivity. Qed.

Lemma last_b_app (x y g : string) : last_b y = Some g -> last_b (x ++ y) = Some g.
Proof.
  intros H; induction x as [|c t IH]; [exact H|].
  change (String c t ++ y) with (String c (t ++ y)).
  now rewrite last_b_cons, IH.
Qed.

Lemma last_b_contains (s g : string) : last_b s = Some g -> contains b_marker s = true.
Proof.
  induction s as [|c t IH]; [discriminate|].
  rewrite last_b_cons. change (contains b_marker (String c t))
    with (prefix b_marker (String c t) || contains b_marker t).
  destruct (last_b t) as [g'|].
  - intros Hg. rewrite (IH Hg). apply orb_true_r.
  - destruct (prefix b_marker (String c t)); [reflexivity | discriminate].
Qed.

Lemma last_b_marker (q : string) :
  q <> EmptyString -> contains b_marker q = false -> last_b (b_marker ++ q) = Some q.
Proof.
  intros Hq Hc.
  assert (Hn : last_b q = None).
  { destruct (last_b q) as [g|] eqn:E; [|reflexivity].
    apply last_b_contains in E. congruence. }
  change (b_marker ++ q) with (String " " (String "b" (String "/" q))).
  rewrite !last_b_cons, Hn.
  replace (prefix b_marker (String "/" q)) with false by reflexivity.
  replace (prefix b_marker (String "b" (String "/" q))) with false by reflexivity.
  simpl andb. cbv iota.
  destruct q as [|c q']; [contradiction|]. reflexivity.
Qed.

Lemma search_header_cons (b : bool) (c : ascii) (t : string) :
  search_header b (String c t) =
  match (if b && prefix header_prefix (String c t)
         then dest_of (line_of (drop 13%nat (String c t))) else None) with
  | Some g => Some g
  | None => search_header (Ascii.eqb c nl_char) t
  end.
Proof. reflexivity. Qed.

Lemma search_header_at_start (y g : string) :
  dest_of (line_of y) = Some g -> search_header true (header_prefix ++ y) = Some g.
Proof.
  intros H.
  assert (Hs : exists c t, header_prefix ++ y = String c t) by (do 2 eexists; reflexivity).
  destruct Hs as [c [t Ht]].
  rewrite Ht, search_header_cons, <- Ht, prefix_app. simpl andb.
  change 13%nat with (String.length header_prefix). rewrite drop_app, H. reflexivity.
Qed.

Lemma file_name_of_header (p q rest : string) :
  p <> EmptyString -> q <> EmptyString -> line_of p = p -> line_of q = q ->
  contains b_marker q = false -> line_of rest = EmptyString ->
  file_name_of (header_prefix ++ p ++ b_marker ++ q ++ rest) = q.
Proof.
  intros Hp Hq Hlp Hlq Hc Hr. unfold file_name_of.
  rewrite (search_header_at_start _ q); [reflexivity|].
  rewrite line_of_app by exact Hlp.
  rewrite line_of_app by reflexivity.
  rewrite line_of_app by exact Hlq.
  rewrite Hr, append_nil_r.
  destruct p as [|c p']; [contradiction|].
  change (dest_of (String c p' ++ b_marker ++ q)) with (last_b (p' ++ b_marker ++ q)).
  apply last_b_app, last_b_marker; assumption.
Qed.

Lemma has_header_line_cons (b : bool) (c : ascii) (t : string) :
  has_header_line b (String c t) =
  (b && prefix diff_marker (String c t)) || has_header_line (Ascii.eqb c nl_char) t.
Proof. reflexivity. Qed.

Lemma search_header_no_header (b : bool) (s : string) :
  has_header_line b s = false -> search_header b s = None.
Proof.
  revert b; induction s as [|c t IH]; intros b H; [reflexivity|].
  rewrite has_header_line_cons in H. apply orb_false_elim in H as [H1 H2].
  rewrite search_header_cons.
  destruct (b && prefix header_prefix (String c t)) eqn:E.
  - apply andb_prop in E as [Eb Ep]. subst b.
    change header_prefix with (diff_marker ++ "a/") in Ep.
    apply prefix_app_l in Ep. rewrite Ep in H1. discriminate.
  - now apply IH.
Qed.

Lemma split_go_no_header (b : bool) (s cur : string) :
  has_header_line b s = false -> split_go b s cur = [cur ++ s].
Proof.
  revert b cur; induction s as [|c t IH]; intros b cur H.
  - simpl. now rewrite append_nil_r.
  - rewrite has_header_line_cons in H. apply orb_false_elim in H as [H1 H2].
    rewrite split_go_cons, H1, IH by exact H2. now rewrite append_assoc.
Qed.

Lemma file_name_of_no_header (d : string) :
  has_header_line true d = false -> file_name_of d = unknown_file.
Proof. intros H. unfold file_name_of. now rewrite search_header_no_header. Qed.

Lemma segments_no_header (patch : string) :
  has_header_line true patch = false -> strip patch <> EmptyString ->
  segments patch = [(unknown_file, strip patch)].
Proof.
  intros H Hs. unfold segments, split_patch.
  rewrite split_go_no_header by exact H. simpl.
  apply String.eqb_neq in Hs. rewrite Hs. simpl.
  now rewrite file_name_of_no_header.
Qed.

(** ** Segments without a destination token *)

Lemma prefix_drop (x s : string) : prefix x s = true -> s = x ++ drop (String.length x) s.
Proof.
  revert s; induction x as [|c t IH]; intros s H; [reflexivity|].
  destruct s as [|d u]; [discriminate|]. simpl in H.
  destruct (ascii_dec c d) as [<-|]; [|discriminate].
  simpl. f_equal. now apply IH.
Qed.

Lemma last_b_split (t g : string) :
  last_b t = Some g -> exists a, t = a ++ b_marker ++ g /\ g <> EmptyString.
Proof.
  induction t as [|c t IH]; intros H; [discriminate|].
  rewrite last_b_cons in H. destruct (last_b t) as [g'|].
  - injection H as <-. destruct (IH eq_refl) as [a [Ha Hg]].
    exists (String c a). rewrite Ha. split; [reflexivity | exact Hg].
  - destruct (prefix b_marker (String c t) && (3 <? String.length (String c t))%nat) eqn:E;
      [|discriminate].
    apply andb_prop in E as [Hp Hlen].
    apply prefix_drop in Hp. change (String.length b_marker) with 3%nat in Hp.
    remember (drop 3 (String c t)) as d eqn:Ed. injection H as ->.
    exists EmptyString. split; [exact Hp|].
    intros He. rewrite He in Hp. rewrite Hp in Hlen. vm_compute in Hlen. discriminate.
Qed.

Lemma dest_token (s g : string) :
  prefix header_prefix s = true -> dest_of (line_of (drop 13%nat s)) = Some g ->
  carries_token (line_of s).
Proof.
  intros Hp Hd. apply prefix_drop in Hp. rewrite Hp, line_of_app by reflexivity.
  change (String.length header_prefix) with 13%nat.
  destruct (line_of (drop 13 s)) as [|c t]; [discriminate|].
  simpl in Hd. destruct (last_b_split t g Hd) as [a [-> Hg]].
  exists (String c a), g. repeat split; [discriminate | exact Hg].
Qed.

Lemma search_header_token (b : bool) (s g : string) :
  search_header b s = Some g -> exists l, In l (lines_from b s) /\ carries_token l.
Proof.
  revert b; induction s as [|c t IH]; intros b H; [discriminate|].
  rewrite search_header_cons in H.
  assert (Hrec : search_header (Ascii.eqb c nl_char) t = Some g ->
                 exists l, In l (lines_from b (String c t)) /\ carries_token l).
  { intros Ht. destruct (IH _ Ht) as [l [Hl Hc]]. exists l. split; [|exact Hc].
    simpl. destruct b; [now right | exact Hl]. }
  destruct b; [|exact (Hrec H)]. rewrite andb_true_l in H.
  destruct (prefix header_prefix (String c t)) eqn:Ep; [|exact (Hrec H)].
  destruct (dest_of (line_of (drop 13 (String c t)))) as [g'|] eqn:Ed; [|exact (Hrec H)].
  exists (line_of (String c t)). split; [now left|]. exact (dest_token _ _ Ep Ed).
Qed.

Lemma file_name_of_no_token (d : string) :
  (forall l, In l (lines_of d) -> ~ carries_token l) -> file_name_of d = unknown_file.
Proof.
  intros H. unfold file_name_of.
  destruct (search_header true d) as [g|] eqn:E; [|reflexivity].
  destruct (search_header_token _ _ _ E) as [l [Hl Hc]]. now destruct (H l Hl).
Qed.

Lemma carries_token_prefix (l : string) : carries_token l -> prefix header_prefix l = true.
Proof. intros [p [q [_ [_ ->]]]]. apply prefix_app. Qed.

Lemma prefix_snoc_nl (pat u : string) :
  line_of pat = pat -> prefix pat (u ++ nl) = prefix pat u.
Proof.
  revert u; induction pat as [|a p IH]; intros u Hp.
  - destruct u; reflexivity.
  - simpl in Hp. destruct (Ascii.eqb a nl_char) eqn:Ea; [discriminate|].
    injection Hp as Hp. destruct u as [|c u'].
    + simpl. destruct (ascii_dec a nl_char) as [->|]; [|reflexivity].
      now rewrite Ascii.eqb_refl in Ea.
    + simpl. destruct (ascii_dec a c); [exact (IH u' Hp) | reflexivity].
Qed.

Lemma has_header_line_snoc_nl (b : bool) (x : string) :
  has_header_line b (x ++ nl) = has_header_line b x.
Proof.
  revert b; induction x as [|c t IH]; intros b.
  - simpl. replace (prefix diff_marker nl) with false by reflexivity.
    now rewrite andb_false_r.
  - change (String c t ++ nl) with (String c (t ++ nl)).
    rewrite !has_header_line_cons, IH.
    change (String c (t ++ nl)) with (String c t ++ nl).
    now rewrite prefix_snoc_nl by reflexivity.
Qed.

Lemma line_of_snoc_nl (x : string) : line_of (x ++ nl) <> x ++ nl.
Proof.
  induction x as [|c t IH]; simpl; [discriminate|].
  destruct (Ascii.eqb c nl_char); [discriminate|].
  intros H. injection H as H. contradiction.
Qed.

Lemma prefix_app_newline (pat u y : string) :
  line_of pat = pat -> line_of u <> u -> prefix pat (u ++ y) = prefix pat u.
Proof.
  revert u; induction pat as [|a p IH]; intros u Hp Hu.
  - destruct u, y; reflexivity.
  - destruct u as [|c u']; [contradiction|].
    simpl in Hp. destruct (Ascii.eqb a nl_char) eqn:Ea; [discriminate|].
    injection Hp as Hp. simpl.
    destruct (ascii_dec a c) as [<-|]; [|reflexivity].
    apply IH; [exact Hp|]. intros Hu'. apply Hu. simpl. now rewrite Ea, Hu'.
Qed.

Lemma split_go_line_free (x y cur : string) :
  line_of x = x -> split_go false (x ++ y) cur = split_go false y (cur ++ x).
Proof.
  revert cur; induction x as [|c t IH]; intros cur Hx.
  - now rewrite append_nil_r.
  - simpl in Hx. destruct (Ascii.eqb c nl_char) eqn:Ec; [discriminate|].
    injection Hx as Hx.
    change (String c t ++ y) with (String c (t ++ y)).
    rewrite split_go_cons, andb_false_l, Ec, IH by exact Hx.
    now rewrite append_assoc.
Qed.

Lemma split_go_nl (b : bool) (x y cur : string) :
  has_header_line b (x ++ nl) = false ->
  split_go b (x ++ nl ++ y) cur = split_go true y (cur ++ x ++ nl).
Proof.
  revert b cur; induction x as [|c t IH]; intros b cur H.
  - change (EmptyString ++ nl ++ y) with (String nl_char y).
    rewrite split_go_cons.
    replace (prefix diff_marker (String nl_char y)) with false by reflexivity.
    now rewrite andb_false_r, Ascii.eqb_refl.
  - change (String c t ++ nl) with (String c (t ++ nl)) in H.
    rewrite has_header_line_cons in H. apply orb_false_elim in H as [H1 H2].
    change (String c t ++ nl ++ y) with (String c (t ++ nl ++ y)).
    rewrite split_go_cons.
    replace (String c (t ++ nl ++ y)) with (String c (t ++ nl) ++ y)
      by (simpl; now rewrite append_assoc).
    rewrite prefix_app_newline by
      (reflexivity || (change (String c (t ++ nl)) with (String c t ++ nl); apply line_of_snoc_nl)).
    rewrite H1. rewrite IH by exact H2. simpl. now rewrite append_assoc.
Qed.

Lemma split_go_marker (y cur : string) :
  split_go true (diff_marker ++ y) cur = cur :: split_go false y diff_marker.
Proof.
  change (diff_marker ++ y) with (String "d" ("iff --git " ++ y)).
  rewrite split_go_cons.
  change (String "d" ("iff --git " ++ y)) with (diff_marker ++ y).
  rewrite prefix_app. simpl andb.
  replace (Ascii.eqb "d" nl_char) with false by reflexivity.
  now rewrite split_go_line_free by reflexivity.
Qed.

Lemma line_free_no_header (x z : string) :
  line_of x = x -> has_header_line false (x ++ z) = has_header_line false z.
Proof.
  induction x as [|c t IH]; intros Hx; [reflexivity|].
  simpl in Hx. destruct (Ascii.eqb c nl_char) eqn:Ec; [discriminate|].
  injection Hx as Hx.
  change (String c t ++ z) with (String c (t ++ z)).
  rewrite has_header_line_cons, Ec. now apply IH.
Qed.

Lemma combine_diffs_cat (acc : string) (ds : list string) :
  combine_diffs acc ds
  = acc ++ cat (map (fun d => render_diff (file_name_of d) (strip d))
                    (filter (fun d => negb (strip d =? EmptyString)) ds)).
Proof.
  revert acc; induction ds as [|d ds IH]; intros acc; simpl.
  - now rewrite append_nil_r.
  - destruct (strip d =? EmptyString); simpl; rewrite IH; [reflexivity|].
    now rewrite append_assoc.
Qed.

Lemma strip_head_nonws (c : ascii) (t : string) :
  is_ws c = false -> strip (String c t) <> EmptyString.
Proof.
  intros Hc. unfold strip. simpl. rewrite Hc. simpl. rewrite Hc. simpl. discriminate.
Qed.

(** ** Subsequences *)

Lemma subseq_refl {A} (l : list A) : subseq l l.
Proof. induction l; constructor; assumption. Qed.

Lemma subseq_trans {A} (l1 l2 l3 : list A) : subseq l1 l2 -> subseq l2 l3 -> subseq l1 l3.
Proof.
  intros H12 H23. revert l1 H12.
  induction H23 as [|x l2 l3 H IH|x l2 l3 H IH]; intros l1 H12.
  - exact H12.
  - constructor. now apply IH.
  - inversion H12; subst.
    + apply subseq_skip. now apply IH.
    + apply subseq_take. now apply IH.
Qed.

Lemma Forall_subseq {A} (P : A -> Prop) (l1 l2 : list A) :
  subseq l1 l2 -> Forall P l2 -> Forall P l1.
Proof.
  induction 1; intros HF; [constructor| |]; inversion HF; subst; auto.
Qed.

(** ** The file filter *)

Section FilterLemmas.
Variable re_search : string -> string -> option bool.

Lemma keep_matching_sound (keep : bool -> bool) (pat : string) (files r : list FileChange) :
  keep_matching re_search keep pat files = Some r ->
  subseq r files /\ Forall (passes re_search keep pat) r.
Proof.
  revert r; induction files as [|f fs IH]; intros r H; simpl in H.
  - injection H as <-. split; constructor.
  - destruct (re_search pat (filename f)) as [m|] eqn:Em; [|discriminate].
    destruct (keep_matching re_search keep pat fs) as [r'|]; [|discriminate].
    destruct (IH r' eq_refl) as [Hs Hp].
    destruct (keep m) eqn:Ek; injection H as <-.
    + split; [now apply subseq_take|]. constructor; [now exists m | exact Hp].
    + split; [now apply subseq_skip | exact Hp].
Qed.

Lemma keep_matching_all (keep : bool -> bool) (pat : string) (files : list FileChange) :
  Forall (passes re_search keep pat) files -> keep_matching re_search keep pat files = Some files.
Proof.
  induction 1 as [|f fs [m [Em Ek]] _ IH]; [reflexivity|].
  simpl. now rewrite Em, IH, Ek.
Qed.

Lemma filter_files_sound (inc exc : option string) (files r : list FileChange) :
  filter_files re_search inc exc files = Some r ->
  subseq r files
  /\ (forall p, truthy inc = Some p -> Forall (passes re_search (fun m => m) p) r)
  /\ (forall p, truthy exc = Some p -> Forall (passes re_search negb p) r).
Proof.
  unfold filter_files. intros H.
  destruct (truthy inc) as [pi|] eqn:Ei.
  - destruct (keep_matching re_search (fun m => m) pi files) as [f1|] eqn:E1; [|discriminate].
    destruct (keep_matching_sound _ _ _ _ E1) as [S1 P1].
    destruct (truthy exc) as [pe|] eqn:Ee.
    + destruct (keep_matching_sound _ _ _ _ H) as [S2 P2].
      repeat split.
      * eapply subseq_trans; eassumption.
      * intros p Hp; injection Hp as <-. eapply Forall_subseq; eassumption.
      * intros p Hp; injection Hp as <-. exact P2.
    + injection H as <-. repeat split; [exact S1 | | discriminate].
      intros p Hp; injection Hp as <-. exact P1.
  - destruct (truthy exc) as [pe|] eqn:Ee.
    + destruct (keep_matching_sound _ _ _ _ H) as [S2 P2].
      repeat split; [exact S2 | discriminate |].
      intros p Hp; injection Hp as <-. exact P2.
    + injection H as <-. repeat split; [apply subseq_refl | discriminate | discriminate].
Qed.

End FilterLemmas.

(** ** The pipelines *)

Lemma bind_ok {A B : Type} (m : M A) (k : A -> M B) (tr : list event) (a : A)
  (tr' : list event) :
  m tr = Ok a tr' -> bind m k tr = k a tr'.
Proof. intros H. unfold bind. now rewrite H. Qed.

Section PipelineLemmas.
Variable re_search : string -> string -> option bool.
Variable gh : github.
Variable generate : string -> option string.

Lemma collect_files_spec (sha : string) (files : list FileChange) (acc : string) (tr : list event) :
  collect_files gh sha files acc tr =
  Ok (acc ++ cat (map (file_section gh sha) files))
     (tr ++ map (fun f => GetFileContent sha (filename f)) files)%list.
Proof.
  revert acc tr; induction files as [|f fs IH]; intros acc tr.
  - simpl. now rewrite append_nil_r, app_nil_r.
  - cbn [collect_files map cat]. unfold bind at 1, try_except, get_file_content.
    unfold bind at 1, call. unfold file_section at 1.
    destruct (file_content gh sha (filename f)) as [c|]; simpl.
    + rewrite IH, append_assoc, <- app_assoc. reflexivity.
    + rewrite IH, <- app_assoc. reflexivity.
Qed.

Lemma process_files_no_commits (pr : nat) (lang : string) (cp inc exc : option string) :
  pr_commits gh = [] ->
  process_files re_search gh generate pr lang cp inc exc [] = Ok tt [GetPr pr; GetCommits pr].
Proof.
  intros H. unfold process_files, get_pr_commits, bind, call, ret. simpl. now rewrite H.
Qed.

Lemma match_nonempty {A B : Type} (l : list A) (a b : B) :
  l <> [] -> match l with [] => a | _ :: _ => b end = b.
Proof. destruct l; [contradiction | reflexivity]. Qed.

Lemma generate_post_trace (pr : nat) (prompt : string) (tr : list event) :
  trace_of ((review <- generate_response generate prompt ;;
             post_comment pr (review_comment review)) tr) =
  (tr ++ GenerateResponse prompt
         :: match generate prompt with
            | Some r => [PostComment pr (review_comment r)]
            | None => []
            end)%list.
Proof.
  unfold generate_response, post_comment, bind, call, ret, raise.
  destruct (generate prompt) as [r|]; simpl; [now rewrite <- app_assoc | reflexivity].
Qed.

Lemma process_files_trace (pr : nat) (lang : string) (cp inc exc : option string)
  (fs : list FileChange) :
  pr_commits gh <> [] ->
  filter_files re_search inc exc (commit_files gh (last (pr_commits gh) EmptyString)) = Some fs ->
  let sha := last (pr_commits gh) EmptyString in
  let prompt := create_review_prompt (cat (map (file_section gh sha) fs)) lang cp in
  trace_of (process_files re_search gh generate pr lang cp inc exc []) =
  ([GetPr pr; GetCommits pr; GetCommitFiles sha]
   ++ map (fun f => GetFileContent sha (filename f)) fs
   ++ GenerateResponse prompt
      :: match generate prompt with
         | Some r => [PostComment pr (review_comment r)]
         | None => []
         end)%list.
Proof.
  intros Hc Hf sha prompt. unfold process_files.
  rewrite (bind_ok _ _ [] (pr_commits gh) [GetPr pr; GetCommits pr]) by reflexivity.
  rewrite (match_nonempty _ _ _ Hc). fold sha. fold sha in Hf.
  unfold analyze_commit_files.
  rewrite (bind_ok _ _ _ (commit_files gh sha) [GetPr pr; GetCommits pr; GetCommitFiles sha])
    by reflexivity.
  rewrite Hf, (bind_ok _ _ _ fs [GetPr pr; GetCommits pr; GetCommitFiles sha]) by reflexivity.
  rewrite (bind_ok _ _ _ _ _ (collect_files_spec _ _ _ _)).
  cbn [String.append]. fold prompt.
  rewrite generate_post_trace. now rewrite <- app_assoc.
Qed.

Lemma process_patch_empty (pr : nat) (lang : string) (cp : option string) :
  pr_patch gh = EmptyString ->
  process_patch gh generate pr lang cp [] = Ok tt [GetPrPatch pr; PostComment pr no_changes_comment].
Proof.
  intros H. unfold process_patch, get_pr_patch, post_comment, bind, call, ret.
  simpl. now rewrite H.
Qed.

Lemma process_patch_trace (pr : nat) (lang : string) (cp : option string) :
  pr_patch gh <> EmptyString ->
  let prompt := create_review_prompt (combine_diffs EmptyString (split_patch (pr_patch gh))) lang cp in
  trace_of (process_patch gh generate pr lang cp []) =
  ([GetPrPatch pr; GenerateResponse prompt]
   ++ match generate prompt with
      | Some r => [PostComment pr (review_comment r)]
      | None => []
      end)%list.
Proof.
  intros Hp prompt. unfold process_patch.
  rewrite (bind_ok _ _ [] (pr_patch gh) [GetPrPatch pr]) by reflexivity.
  apply String.eqb_neq in Hp. rewrite Hp.
  unfold analyze_patch. fold prompt. now rewrite generate_post_trace.
Qed.

End PipelineLemmas.
(** ** Whitespace-only patches *)

Lemma all_ws_no_header (b : bool) (s : string) : all_ws s = true -> has_header_line b s = false.
Proof.
  revert b; induction s as [|c t IH]; intros b H; [reflexivity|].
  simpl in H. apply andb_prop in H as [Hc Ht].
  rewrite has_header_line_cons, IH by exact Ht. rewrite orb_false_r.
  change diff_marker with (String "d" "iff --git ").
  destruct b; [|reflexivity]. rewrite andb_true_l.
  change (prefix (String "d" "iff --git ") (String c t))
    with (if ascii_dec "d" c then prefix "iff --git " t else false).
  destruct (ascii_dec "d" c) as [<-|]; [discriminate | reflexivity].
Qed.

Lemma lstrip_all_ws (s : string) : all_ws s = true -> lstrip s = EmptyString.
Proof.
  induction s as [|c t IH]; intros H; [reflexivity|].
  simpl in H. apply andb_prop in H as [Hc Ht]. simpl. rewrite Hc. now apply IH.
Qed.

Lemma strip_all_ws (s : string) : all_ws s = true -> strip s = EmptyString.
Proof. intros H. unfold strip. now rewrite lstrip_all_ws. Qed.

Lemma split_patch_all_ws (s : string) : all_ws s = true -> split_patch s = [s].
Proof. intros H. unfold split_patch. now rewrite split_go_no_header by now apply all_ws_no_header. Qed.

Lemma sections_all_failed (gh : github) (sha : string) (fs : list FileChange) :
  (forall f, In f fs -> file_content gh sha (filename f) = None) ->
  cat (map (file_section gh sha) fs) = EmptyString.
Proof.
  induction fs as [|f fs IH]; intros Hn; [reflexivity|].
  cbn [map cat]. unfold file_section at 1.
  rewrite (Hn f (or_introl eq_refl)). apply IH.
  intros g Hg. apply Hn. now right.
Qed.

(** ** Counting completion-service calls *)

Lemma count_generate_app (l1 l2 : list event) :
  count_generate (l1 ++ l2)%list = count_generate l1 + count_generate l2.
Proof. unfold count_generate. now rewrite filter_app, length_app. Qed.

Lemma count_generate_fetches (sha : string) (fs : list FileChange) :
  count_generate (map (fun f => GetFileContent sha (filename f)) fs) = 0.
Proof. induction fs; simpl; auto. Qed.

Lemma count_generate_post (pr : nat) (o : option string) :
  count_generate (match o with Some r => [PostComment pr (review_comment r)] | None => [] end) = 0.
Proof. destruct o; reflexivity. Qed.

(** * Claims *)

(** ** Single completion-service call per run *)

(** Claim C1, as stated, fails: in File-Mode with a non-empty commit list
    and a malformed include pattern, [re.search] raises inside the filter
    and the completion service is never called. *)
Lemma C1_malformed_pattern_no_call :
  ~ (forall (re_search : string -> string -> option bool) (gh : github)
            (generate : string -> option string) (pr : nat) (lang : string)
            (cp inc exc : option string),
       pr_commits gh <> [] ->
       count_generate (trace_of (process_files re_search gh generate pr lang cp inc exc [])) = 1).
Proof.
  intros H.
  specialize (H bracket_engine gh_one_file (fun _ => Some "ok") 1 "en" None (Some "[") None).
  vm_compute in H. discriminate (H ltac:(discriminate)).
Qed.

(** Claim C1 (amended): a run that reaches the aggregation stage
    (File-Mode with a non-empty commit list whose include/exclude filtering
    does not raise, or Patch-Mode with a non-empty patch) calls the
    completion service's generate operation exactly once, whatever the
    number of files, failed fetches or diff segments. *)
Theorem generate_called_once (re_search : string -> string -> option bool) (gh : github)
  (generate : string -> option string) (mode : string) (pr : nat) (lang : string)
  (cp inc exc : option string) :
  (mode = "files" /\ pr_commits gh <> []
   /\ filter_files re_search inc exc (commit_files gh (last (pr_commits gh) EmptyString)) <> None)
  \/ (mode = "patch" /\ pr_patch gh <> EmptyString) ->
  count_generate (trace_of (run_mode re_search gh generate mode pr lang cp inc exc [])) = 1.
Proof.
  intros [[-> [Hc Hf]] | [-> Hp]].
  - change (run_mode re_search gh generate "files" pr lang cp inc exc)
      with (process_files re_search gh generate pr lang cp inc exc).
    destruct (filter_files re_search inc exc (commit_files gh (last (pr_commits gh) EmptyString)))
      as [fs|] eqn:E; [|contradiction].
    rewrite (process_files_trace re_search gh generate pr lang cp inc exc fs Hc E).
    rewrite !count_generate_app, count_generate_fetches.
    change (GenerateResponse ?p :: ?l) with ([GenerateResponse p] ++ l)%list.
    rewrite count_generate_app, count_generate_post. reflexivity.
  - change (run_mode re_search gh generate "patch" pr lang cp inc exc)
      with (process_patch gh generate pr lang cp).
    rewrite (process_patch_trace gh generate pr lang cp Hp).
    rewrite count_generate_app, count_generate_post. reflexivity.
Qed.

Lemma generate_called_once_witness :
  count_generate (trace_of (run_mode bracket_engine gh_one_file (fun _ => None) "files" 1 "en"
                              None (Some "py") None [])) = 1.
Proof.
  apply generate_called_once. left. split; [reflexivity|]. split; [discriminate|].
  vm_compute. discriminate.
Defined.

(** ** Segmentation is lossless *)

(** Claim C2: splitting a patch on diff-header boundaries loses nothing
    (the pieces concatenate back to the patch), and the trimmed bodies of
    the retained segments, in order, separated and surrounded by
    whitespace-only gaps, make up the patch exactly: only whitespace next
    to a segment boundary is dropped. *)
Theorem split_patch_lossless (patch : string) :
  cat (split_patch patch) = patch
  /\ exists gaps,
       length gaps = S (length (segments patch))
       /\ Forall (fun g => all_ws g = true) gaps
       /\ patch = weave gaps (map snd (segments patch)).
Proof.
  split; [apply split_patch_cat|].
  destruct (cat_weave (split_patch patch)) as [gaps [Hlen [Hws Heq]]].
  assert (Hb : map snd (segments patch)
               = map strip (filter (fun d => negb (strip d =? EmptyString)) (split_patch patch)))
    by (unfold segments; rewrite map_map; reflexivity).
  exists gaps. rewrite Hb, <- (length_map snd (segments patch)), Hb.
  split; [exact Hlen|]. split; [exact Hws|].
  now rewrite <- Heq, split_patch_cat.
Qed.

(** ** The file filter *)

(** Claim C3: whenever the filter returns (no pattern raises), its result
    is a subsequence of its input, and filtering that result again with
    the same patterns returns it unchanged. *)
Theorem filter_files_subseq_idem (re_search : string -> string -> option bool)
  (inc exc : option string) (files r : list FileChange) :
  filter_files re_search inc exc files = Some r ->
  subseq r files /\ filter_files re_search inc exc r = Some r.
Proof.
  intros H. destruct (filter_files_sound re_search inc exc files r H) as [Hs [Hi He]].
  split; [exact Hs|]. unfold filter_files.
  destruct (truthy inc) as [pi|] eqn:Ei.
  - rewrite (keep_matching_all re_search _ _ _ (Hi pi eq_refl)).
    destruct (truthy exc) as [pe|]; [|reflexivity].
    exact (keep_matching_all re_search _ _ _ (He pe eq_refl)).
  - destruct (truthy exc) as [pe|]; [|reflexivity].
    exact (keep_matching_all re_search _ _ _ (He pe eq_refl)).
Qed.

Lemma filter_files_subseq_idem_witness :
  filter_files literal_search (Some "py") None
    [mkFileChange "a.py" "added"; mkFileChange "b.md" "added"] = Some [mkFileChange "a.py" "added"]
  /\ subseq [mkFileChange "a.py" "added"] [mkFileChange "a.py" "added"; mkFileChange "b.md" "added"]
  /\ filter_files literal_search (Some "py") None [mkFileChange "a.py" "added"]
     = Some [mkFileChange "a.py" "added"].
Proof.
  assert (H : filter_files literal_search (Some "py") None
               [mkFileChange "a.py" "added"; mkFileChange "b.md" "added"]
             = Some [mkFileChange "a.py" "added"]) by reflexivity.
  split; [exact H|]. exact (filter_files_subseq_idem _ _ _ _ _ H).
Defined.

(** ** The prompt builder with a custom prompt *)

(** Claim C4, as stated, fails: the code puts a newline between the
    custom prompt and ["### Code"]. *)
Lemma C4_custom_prompt_newline :
  create_review_prompt "c" "en" (Some "P")
  <> "P" ++ "### Code" ++ nl ++ "```" ++ "c" ++ "```" ++ nl ++ nl
     ++ "Write this code review in the following " ++ "en" ++ ":" ++ nl ++ nl.
Proof. intros H. vm_compute in H. discriminate H. Qed.

(** Claim C4 (amended): with a non-empty custom prompt, the prompt is
    exactly [customPrompt + "\n" + "### Code\n```" + content + "```\n\n"
    + "Write this code review in the following " + language + ":\n\n"]. *)
Theorem custom_prompt_exact (content language cp : string) :
  cp <> EmptyString ->
  create_review_prompt content language (Some cp)
  = cp ++ nl ++ "### Code" ++ nl ++ "```" ++ content ++ "```" ++ nl ++ nl
    ++ "Write this code review in the following " ++ language ++ ":" ++ nl ++ nl.
Proof.
  intros H. unfold create_review_prompt, truthy.
  apply String.eqb_neq in H. now rewrite H.
Qed.

Lemma custom_prompt_exact_witness :
  create_review_prompt "x = 1" "en" (Some "Review this.")
  = "Review this." ++ nl ++ "### Code" ++ nl ++ "```" ++ "x = 1" ++ "```" ++ nl ++ nl
    ++ "Write this code review in the following " ++ "en" ++ ":" ++ nl ++ nl.
Proof. apply custom_prompt_exact. discriminate. Defined.

(** ** Filenames of diff segments *)

(** Claim C5, as stated, fails twice: a whitespace-only patch has no diff
    header but yields no segment at all, and a destination path containing
    [" b/"] is cut at its last [" b/"] by the greedy regex. *)
Lemma C5_blank_patch_and_greedy_path :
  has_header_line true " " = false /\ segments " " = []
  /\ file_name_of "diff --git a/a b/c b/a b/c" = "c".
Proof. vm_compute. repeat split. Qed.

(** Claim C5 (amended): for a segment whose header line is
    [diff --git a/P b/Q] (P, Q non-empty, one line, Q without [" b/"]),
    the filename is Q; a segment none of whose lines reads
    [diff --git a/P b/Q] with P, Q non-empty (no destination token can be
    found) is labelled ["Unknown file"]; a non-blank patch with no diff
    header yields exactly one segment, labelled ["Unknown file"]; and for
    every patch made of a well-formed first segment and a malformed second
    one (a [diff --git ] line with no destination token), the two are
    labelled with the real filename and the sentinel, and both are
    rendered, in order, in the aggregated content. *)
Theorem segment_file_names :
  (forall p q rest,
     p <> EmptyString -> q <> EmptyString -> line_of p = p -> line_of q = q ->
     contains b_marker q = false -> line_of rest = EmptyString ->
     file_name_of (header_prefix ++ p ++ b_marker ++ q ++ rest) = q)
  /\ (forall d, (forall l, In l (lines_of d) -> ~ carries_token l) ->
        file_name_of d = unknown_file)
  /\ (forall patch, has_header_line true patch = false -> strip patch <> EmptyString ->
        segments patch = [(unknown_file, strip patch)])
  /\ (forall p q body m,
        p <> EmptyString -> q <> EmptyString -> line_of p = p -> line_of q = q ->
        contains b_marker q = false ->
        line_of body = EmptyString -> has_header_line false body = false ->
        has_header_line false m = false ->
        (forall l, In l (lines_of (diff_marker ++ m)) -> ~ carries_token l) ->
        let seg1 := header_prefix ++ p ++ b_marker ++ q ++ body ++ nl in
        let seg2 := diff_marker ++ m in
        segments (seg1 ++ seg2) = [(q, strip seg1); (unknown_file, strip seg2)]
        /\ combine_diffs EmptyString (split_patch (seg1 ++ seg2))
           = render_diff q (strip seg1) ++ render_diff unknown_file (strip seg2)).
Proof.
  split; [exact file_name_of_header|].
  split; [exact file_name_of_no_token|].
  split; [exact segments_no_header|].
  intros p q body m Hp Hq Hlp Hlq Hc Hlb Hhb Hhm Hm seg1 seg2.
  assert (Hsplit : split_patch (seg1 ++ seg2) = [EmptyString; seg1; seg2]).
  { assert (HL : line_of ("a/" ++ p ++ b_marker ++ q) = "a/" ++ p ++ b_marker ++ q).
    { rewrite !line_of_app by (assumption || reflexivity). now rewrite Hlq. }
    unfold split_patch, seg1, seg2. change header_prefix with (diff_marker ++ "a/").
    replace (((diff_marker ++ "a/") ++ p ++ b_marker ++ q ++ body ++ nl) ++ diff_marker ++ m)
      with (diff_marker ++ ("a/" ++ p ++ b_marker ++ q) ++ body ++ nl ++ diff_marker ++ m)
      by now rewrite !append_assoc.
    rewrite split_go_marker, split_go_line_free by exact HL.
    rewrite split_go_nl.
    2:{ rewrite has_header_line_snoc_nl. exact Hhb. }
    rewrite split_go_marker, split_go_no_header by exact Hhm.
    now rewrite !append_assoc. }
  assert (Hn1 : file_name_of seg1 = q).
  { apply file_name_of_header; try assumption.
    destruct body as [|c t]; [reflexivity|]. simpl in Hlb |- *.
    destruct (Ascii.eqb c nl_char); [reflexivity | discriminate]. }
  assert (Hn2 : file_name_of seg2 = unknown_file) by now apply file_name_of_no_token.
  assert (Hs1 : (strip seg1 =? EmptyString) = false).
  { apply String.eqb_neq. apply strip_head_nonws. reflexivity. }
  assert (Hs2 : (strip seg2 =? EmptyString) = false).
  { apply String.eqb_neq. apply strip_head_nonws. reflexivity. }
  clearbody seg1 seg2.
  split.
  - unfold segments. rewrite Hsplit. simpl filter. rewrite Hs1, Hs2. simpl.
    now rewrite Hn1, Hn2.
  - rewrite combine_diffs_cat, Hsplit. simpl filter. rewrite Hs1, Hs2. simpl.
    now rewrite Hn1, Hn2, append_nil_r.
Qed.

Lemma segment_file_names_witness :
  file_name_of (header_prefix ++ "x.py" ++ b_marker ++ "x.py" ++ nl ++ "+print(1)") = "x.py"
  /\ file_name_of ("diff --git garbage" ++ nl ++ "+y") = unknown_file
  /\ segments ("hello" ++ nl) = [(unknown_file, "hello")]
  /\ segments (header_prefix ++ "x.py" ++ b_marker ++ "x.py" ++ (nl ++ "+print(1)") ++ nl
               ++ diff_marker ++ "garbage" ++ nl ++ "+y" ++ nl)
     = [("x.py", "diff --git a/x.py b/x.py" ++ nl ++ "+print(1)");
        (unknown_file, "diff --git garbage" ++ nl ++ "+y")].
Proof.
  destruct segment_file_names as [H1 [H2 [H3 H4]]].
  split; [apply H1; try discriminate; reflexivity|].
  split.
  { apply H2. intros l Hl. vm_compute in Hl.
    destruct Hl as [<- | [<- | []]]; intros Ht; apply carries_token_prefix in Ht;
      vm_compute in Ht; discriminate. }
  split; [apply H3; [reflexivity | discriminate]|].
  refine (proj1 (H4 "x.py" "x.py" (nl ++ "+print(1)") ("garbage" ++ nl ++ "+y" ++ nl)
                 _ _ _ _ _ _ _ _ _));
    try discriminate; try reflexivity.
  intros l Hl. vm_compute in Hl.
  destruct Hl as [<- | [<- | []]]; intros Ht; apply carries_token_prefix in Ht;
    vm_compute in Ht; discriminate.
Defined.

(** ** Empty inputs and failure isolation *)

(** Claim C6: with an empty patch, Patch-Mode fetches the patch, posts
    exactly one informational comment and calls nothing else (in
    particular not the completion service). *)
Theorem empty_patch_informational (gh : github) (generate : string -> option string)
  (pr : nat) (lang : string) (cp : option string) :
  pr_patch gh = EmptyString ->
  trace_of (process_patch gh generate pr lang cp [])
  = [GetPrPatch pr; PostComment pr no_changes_comment].
Proof. intros H. now rewrite process_patch_empty. Qed.

Lemma empty_patch_informational_witness :
  trace_of (process_patch gh_one_file (fun _ => Some "ok") 3 "en" None [])
  = [GetPrPatch 3; PostComment 3 no_changes_comment].
Proof. apply empty_patch_informational. reflexivity. Defined.

(** Claim C7: with no commits, File-Mode only lists the pull request's
    commits: no comment, no file list, no content fetch, no completion
    call. *)
Theorem no_commits_no_effects (re_search : string -> string -> option bool) (gh : github)
  (generate : string -> option string) (pr : nat) (lang : string) (cp inc exc : option string) :
  pr_commits gh = [] ->
  trace_of (process_files re_search gh generate pr lang cp inc exc [])
  = [GetPr pr; GetCommits pr].
Proof. intros H. now rewrite process_files_no_commits. Qed.

Lemma no_commits_no_effects_witness :
  trace_of (process_files literal_search gh_no_commits (fun _ => Some "ok") 3 "en" None None None [])
  = [GetPr 3; GetCommits 3].
Proof. apply no_commits_no_effects. reflexivity. Defined.

(** Claim C8: in File-Mode every surviving file's content is fetched, in
    order, whether or not earlier fetches failed; a failed file contributes
    nothing to the aggregated content; the prompt built from that content
    is sent once and the review posted (when the service answers). When
    every fetch fails the aggregated content is empty. *)
Theorem file_fetch_failures_isolated (re_search : string -> string -> option bool)
  (gh : github) (generate : string -> option string) (pr : nat) (lang : string)
  (cp inc exc : option string) (fs : list FileChange) :
  pr_commits gh <> [] ->
  filter_files re_search inc exc (commit_files gh (last (pr_commits gh) EmptyString)) = Some fs ->
  let sha := last (pr_commits gh) EmptyString in
  let combined := cat (map (file_section gh sha) fs) in
  trace_of (process_files re_search gh generate pr lang cp inc exc [])
  = ([GetPr pr; GetCommits pr; GetCommitFiles sha]
     ++ map (fun f => GetFileContent sha (filename f)) fs
     ++ GenerateResponse (create_review_prompt combined lang cp)
        :: match generate (create_review_prompt combined lang cp) with
           | Some r => [PostComment pr (review_comment r)]
           | None => []
           end)%list
  /\ ((forall f, In f fs -> file_content gh sha (filename f) = None) -> combined = EmptyString).
Proof.
  intros Hc Hf sha combined. split.
  - exact (process_files_trace re_search gh generate pr lang cp inc exc fs Hc Hf).
  - apply sections_all_failed.
Qed.

Lemma file_fetch_failures_isolated_witness :
  trace_of (process_files literal_search gh_fetch_fails (fun _ => Some "ok") 3 "en" None
              (Some "py") None [])
  = ([GetPr 3; GetCommits 3; GetCommitFiles "c1"; GetFileContent "c1" "a.py";
      GenerateResponse (create_review_prompt EmptyString "en" None);
      PostComment 3 (review_comment "ok")])%list.
Proof.
  destruct (file_fetch_failures_isolated literal_search gh_fetch_fails (fun _ => Some "ok") 3 "en"
              None (Some "py") None [mkFileChange "a.py" "added"]) as [H1 H2];
    [discriminate | reflexivity |].
  rewrite H1. reflexivity.
Defined.

(** Claim C9: when the filters remove every changed file, File-Mode still
    sends one prompt built from empty content and posts one review
    comment; it neither stops early nor posts an informational message. *)
Theorem all_filtered_still_reviews (re_search : string -> string -> option bool)
  (gh : github) (generate : string -> option string) (pr : nat) (lang : string)
  (cp inc exc : option string) (review : string) :
  pr_commits gh <> [] ->
  filter_files re_search inc exc (commit_files gh (last (pr_commits gh) EmptyString)) = Some [] ->
  generate (create_review_prompt EmptyString lang cp) = Some review ->
  trace_of (process_files re_search gh generate pr lang cp inc exc [])
  = [GetPr pr; GetCommits pr; GetCommitFiles (last (pr_commits gh) EmptyString);
     GenerateResponse (create_review_prompt EmptyString lang cp);
     PostComment pr (review_comment review)].
Proof.
  intros Hc Hf Hg.
  rewrite (process_files_trace re_search gh generate pr lang cp inc exc [] Hc Hf).
  cbn [map cat app]. now rewrite Hg.
Qed.

Lemma all_filtered_still_reviews_witness :
  trace_of (process_files literal_search gh_one_file (fun _ => Some "ok") 3 "en" None
              (Some "rs") None [])
  = [GetPr 3; GetCommits 3; GetCommitFiles "c1";
     GenerateResponse (create_review_prompt EmptyString "en" None);
     PostComment 3 (review_comment "ok")].
Proof. apply all_filtered_still_reviews; [discriminate | reflexivity | reflexivity]. Defined.

(** Claim C10: a non-empty, whitespace-only patch does not get the
    informational comment: it yields no segment, and one review of empty
    content is requested and posted. *)
Theorem whitespace_patch_reviews_empty (gh : github) (generate : string -> option string)
  (pr : nat) (lang : string) (cp : option string) (review : string) :
  pr_patch gh <> EmptyString ->
  all_ws (pr_patch gh) = true ->
  generate (create_review_prompt EmptyString lang cp) = Some review ->
  segments (pr_patch gh) = []
  /\ trace_of (process_patch gh generate pr lang cp [])
     = [GetPrPatch pr; GenerateResponse (create_review_prompt EmptyString lang cp);
        PostComment pr (review_comment review)].
Proof.
  intros Hp Hw Hg.
  assert (Hs : strip (pr_patch gh) = EmptyString) by now apply strip_all_ws.
  split.
  - unfold segments. rewrite split_patch_all_ws by exact Hw. simpl. now rewrite Hs.
  - rewrite (process_patch_trace gh generate pr lang cp Hp).
    rewrite split_patch_all_ws by exact Hw. simpl combine_diffs. rewrite Hs. simpl negb.
    cbv iota. now rewrite Hg.
Qed.

Lemma whitespace_patch_reviews_empty_witness :
  segments (" " ++ nl) = []
  /\ trace_of (process_patch gh_blank_patch (fun _ => Some "ok") 3 "en" None [])
     = [GetPrPatch 3; GenerateResponse (create_review_prompt EmptyString "en" None);
        PostComment 3 (review_comment "ok")].
Proof.
  apply (whitespace_patch_reviews_empty gh_blank_patch); [discriminate | reflexivity | reflexivity].
Defined.

(** * Further properties of main.py *)

(** ** Helpers *)

Lemma rstrip_idem (s : string) : rstrip (rstrip s) = rstrip s.
Proof.
  induction s as [|c t IH]; [reflexivity|]. simpl.
  destruct (is_ws c && (rstrip t =? EmptyString)) eqn:E; [reflexivity|].
  simpl. rewrite IH, E. reflexivity.
Qed.

Lemma lstrip_head (s : string) :
  lstrip s = EmptyString \/ exists c t, lstrip s = String c t /\ is_ws c = false.
Proof.
  induction s as [|c t IH]; [now left|]. simpl.
  destruct (is_ws c) eqn:E; [exact IH|]. right. now exists c, t.
Qed.

Lemma strip_idem (s : string) : strip (strip s) = strip s.
Proof.
  unfold strip. destruct (lstrip_head s) as [-> | [c [t [-> Hc]]]]; [reflexivity|].
  assert (Hr : lstrip (rstrip (String c t)) = rstrip (String c t)).
  { simpl. destruct (is_ws c && (rstrip t =? EmptyString)); [reflexivity|]. simpl. now rewrite Hc. }
  rewrite Hr. apply rstrip_idem.
Qed.

Lemma append_cancel_l (x s t : string) : x ++ s = x ++ t -> s = t.
Proof. induction x as [|c x IH]; simpl; [auto | intros H; injection H; auto]. Qed.

Lemma append_length (x y : string) : String.length (x ++ y) = String.length x + String.length y.
Proof. induction x as [|c x IH]; simpl; [reflexivity | now rewrite IH]. Qed.

Lemma append_cancel_r (x y s : string) : x ++ s = y ++ s -> x = y.
Proof.
  revert y; induction x as [|c x IH]; intros [|d y] H; simpl in H.
  - reflexivity.
  - apply (f_equal String.length) in H. simpl in H. rewrite append_length in H. lia.
  - apply (f_equal String.length) in H. simpl in H. rewrite append_length in H. lia.
  - injection H as -> H. now rewrite (IH y H).
Qed.

Lemma line_of_idem (s : string) : line_of (line_of s) = line_of s.
Proof.
  induction s as [|c t IH]; [reflexivity|]. simpl.
  destruct (Ascii.eqb c nl_char) eqn:E; [reflexivity|]. simpl. now rewrite E, IH.
Qed.

Lemma line_of_drop (n : nat) (s : string) : line_of s = s -> line_of (drop n s) = drop n s.
Proof.
  revert s; induction n as [|n IH]; intros [|c t] H; simpl; auto.
  apply IH. simpl in H. destruct (Ascii.eqb c nl_char); [discriminate|]. now injection H.
Qed.

Lemma last_b_line (l g : string) :
  line_of l = l -> last_b l = Some g -> line_of g = g /\ g <> EmptyString.
Proof.
  induction l as [|c t IH]; intros Hl H; [discriminate|].
  assert (Ht : line_of t = t).
  { simpl in Hl. destruct (Ascii.eqb c nl_char); [discriminate|]. now injection Hl. }
  rewrite last_b_cons in H. destruct (last_b t) as [g'|]; [now apply IH|].
  destruct (prefix b_marker (String c t) && (3 <? String.length (String c t))%nat) eqn:E;
    [|discriminate].
  injection H as <-. apply andb_prop in E as [_ Hlen].
  split; [exact (line_of_drop 3 (String c t) Hl)|].
  apply Nat.ltb_lt in Hlen. destruct t as [|c1 [|c2 [|c3 t]]]; simpl in *; try lia.
  discriminate.
Qed.

Lemma search_header_line (b : bool) (s g : string) :
  search_header b s = Some g -> line_of g = g /\ g <> EmptyString.
Proof.
  revert b; induction s as [|c t IH]; intros b H; [discriminate|].
  rewrite search_header_cons in H.
  destruct (b && prefix header_prefix (String c t)).
  - destruct (dest_of (line_of (drop 13 (String c t)))) as [g'|] eqn:E.
    + injection H as <-. destruct (line_of (drop 13 (String c t))) as [|c' l] eqn:El;
        [discriminate|].
      simpl in E. apply (last_b_line l); [|exact E].
      pose proof (line_of_idem (drop 13 (String c t))) as Hi. rewrite El in Hi.
      simpl in Hi. destruct (Ascii.eqb c' nl_char); [discriminate|]. now injection Hi.
    + now apply (IH (Ascii.eqb c nl_char)).
  - now apply (IH (Ascii.eqb c nl_char)).
Qed.

Section ExtraFilter.
Variable re_search : string -> string -> option bool.

Lemma keep_matching_in (keep : bool -> bool) (pat : string) (files r : list FileChange) :
  keep_matching re_search keep pat files = Some r ->
  forall f, In f r <-> In f files /\ exists m, re_search pat (filename f) = Some m /\ keep m = true.
Proof.
  revert r; induction files as [|f0 fs IH]; intros r H f; simpl in H.
  - injection H as <-. simpl. tauto.
  - destruct (re_search pat (filename f0)) as [m0|] eqn:E0; [|discriminate].
    destruct (keep_matching re_search keep pat fs) as [r'|] eqn:Er; [|discriminate].
    specialize (IH r' eq_refl f).
    destruct (keep m0) eqn:Ek; injection H as <-; simpl; rewrite IH; split.
    + intros [<- | [Hin Hm]]; [split; [now left | now exists m0] | split; [now right | exact Hm]].
    + intros [[<- | Hin] Hm]; [now left | right; now split].
    + intros [Hin Hm]; split; [now right | exact Hm].
    + intros [[<- | Hin] [m [Em Hk]]].
      * rewrite E0 in Em. injection Em as <-. congruence.
      * split; [exact Hin | now exists m].
Qed.

End ExtraFilter.

Section ExtraPipeline.
Variable re_search : string -> string -> option bool.
Variable gh : github.
Variable generate : string -> option string.

Lemma process_files_filter_raises (pr : nat) (lang : string) (cp inc exc : option string) :
  pr_commits gh <> [] ->
  filter_files re_search inc exc (commit_files gh (last (pr_commits gh) EmptyString)) = None ->
  process_files re_search gh generate pr lang cp inc exc []
  = Raised [GetPr pr; GetCommits pr; GetCommitFiles (last (pr_commits gh) EmptyString)].
Proof.
  intros Hc Hf. unfold process_files.
  rewrite (bind_ok _ _ [] (pr_commits gh) [GetPr pr; GetCommits pr]) by reflexivity.
  rewrite (match_nonempty _ _ _ Hc). unfold analyze_commit_files.
  rewrite (bind_ok _ _ _ (commit_files gh (last (pr_commits gh) EmptyString))
             [GetPr pr; GetCommits pr; GetCommitFiles (last (pr_commits gh) EmptyString)])
    by reflexivity.
  rewrite Hf. reflexivity.
Qed.

Lemma run_mode_files (pr : nat) (lang : string) (cp inc exc : option string) :
  run_mode re_search gh generate "files" pr lang cp inc exc
  = process_files re_search gh generate pr lang cp inc exc.
Proof. reflexivity. Qed.

Lemma run_mode_patch (pr : nat) (lang : string) (cp inc exc : option string) :
  run_mode re_search gh generate "patch" pr lang cp inc exc = process_patch gh generate pr lang cp.
Proof. reflexivity. Qed.

Lemma generate_post_outcome (pr : nat) (prompt : string) (tr : list event) :
  generate prompt = None ->
  (review <- generate_response generate prompt ;; post_comment pr (review_comment review)) tr
  = Raised (tr ++ [GenerateResponse prompt])%list.
Proof. intros H. unfold generate_response, bind, call. now rewrite H. Qed.

End ExtraPipeline.

Lemma count_post_app (l1 l2 : list event) :
  count_post (l1 ++ l2)%list = count_post l1 + count_post l2.
Proof. unfold count_post. now rewrite filter_app, length_app. Qed.

Lemma count_post_fetches (sha : string) (fs : list FileChange) :
  count_post (map (fun f => GetFileContent sha (filename f)) fs) = 0.
Proof. unfold count_post. induction fs; simpl; auto. Qed.

Lemma count_post_answer (pr : nat) (o : option string) :
  count_post (match o with Some r => [PostComment pr (review_comment r)] | None => [] end) <= 1.
Proof. destruct o; unfold count_post; simpl; lia. Qed.




(** ** Extra properties *)



(** X2: every retained segment body is non-empty and already stripped:
    it neither starts nor ends with whitespace. *)
Theorem segment_bodies_stripped (patch name body : string) :
  In (name, body) (segments patch) -> body <> EmptyString /\ strip body = body.
Proof.
  unfold segments. intros H. apply in_map_iff in H as [d [Hd Hin]].
  injection Hd as _ <-. apply filter_In in Hin as [_ Hn].
  split; [|apply strip_idem].
  intros He. rewrite He in Hn. discriminate.
Qed.

Lemma segment_bodies_stripped_witness :
  ("diff --git a/x.py b/x.py" ++ nl ++ "+print(1)") <> EmptyString
  /\ strip ("diff --git a/x.py b/x.py" ++ nl ++ "+print(1)")
     = "diff --git a/x.py b/x.py" ++ nl ++ "+print(1)".
Proof. apply (segment_bodies_stripped patch_two "x.py"). vm_compute. left. reflexivity. Defined.

(** X3: the label of every retained segment (the [### File:] header) is
    non-empty and contains no newline. *)
Theorem segment_labels_single_line (patch name body : string) :
  In (name, body) (segments patch) -> name <> EmptyString /\ line_of name = name.
Proof.
  unfold segments. intros H. apply in_map_iff in H as [d [Hd _]].
  injection Hd as <- _. unfold file_name_of.
  destruct (search_header true d) as [g|] eqn:E.
  - apply search_header_line in E. tauto.
  - split; [discriminate | reflexivity].
Qed.

Lemma segment_labels_single_line_witness :
  unknown_file <> EmptyString /\ line_of unknown_file = unknown_file.
Proof.
  apply (segment_labels_single_line patch_two unknown_file ("diff --git garbage" ++ nl ++ "+y")).
  vm_compute. right. left. reflexivity.
Defined.

(** X4: whatever the mode, the inputs and the failures of the clients, a
    run calls the completion service at most once and posts at most one
    comment on the pull request. *)
Theorem at_most_one_call_and_comment (re_search : string -> string -> option bool)
  (gh : github) (generate : string -> option string) (mode : string) (pr : nat)
  (lang : string) (cp inc exc : option string) :
  let tr := trace_of (run_mode re_search gh generate mode pr lang cp inc exc []) in
  count_generate tr <= 1 /\ count_post tr <= 1.
Proof.
  intros tr. unfold tr. clear tr.
  destruct (mode =? "files") eqn:Ef.
  - apply String.eqb_eq in Ef. subst mode. rewrite run_mode_files.
    destruct (pr_commits gh) as [|c cs] eqn:Ec.
    + rewrite process_files_no_commits by exact Ec. unfold count_generate, count_post; simpl; lia.
    + assert (Hc : pr_commits gh <> []) by (rewrite Ec; discriminate).
      destruct (filter_files re_search inc exc (commit_files gh (last (pr_commits gh) EmptyString)))
        as [fs|] eqn:Hf.
      * rewrite (process_files_trace re_search gh generate pr lang cp inc exc fs Hc Hf).
        change (GenerateResponse ?p :: ?l) with ([GenerateResponse p] ++ l)%list.
        rewrite !count_generate_app, !count_post_app, count_generate_fetches, count_post_fetches,
          count_generate_post.
        pose proof (count_post_answer pr (generate (create_review_prompt
          (cat (map (file_section gh (last (pr_commits gh) "")) fs)) lang cp))).
        unfold count_generate, count_post in *; simpl in *; lia.
      * rewrite (process_files_filter_raises re_search gh generate pr lang cp inc exc Hc Hf).
        unfold count_generate, count_post; simpl; lia.
  - destruct (mode =? "patch") eqn:Ep.
    + apply String.eqb_eq in Ep. subst mode. rewrite run_mode_patch.
      destruct (pr_patch gh =? EmptyString) eqn:Hp.
      * apply String.eqb_eq in Hp. rewrite process_patch_empty by exact Hp.
        unfold count_generate, count_post; simpl; lia.
      * apply String.eqb_neq in Hp. rewrite (process_patch_trace gh generate pr lang cp Hp).
        rewrite count_generate_app, count_post_app, count_generate_post.
        pose proof (count_post_answer pr (generate (create_review_prompt
          (combine_diffs "" (split_patch (pr_patch gh))) lang cp))).
        unfold count_generate, count_post in *; simpl in *; lia.
    + unfold run_mode. rewrite Ef, Ep. unfold count_generate, count_post; simpl; lia.
Qed.

(** X5: when the completion service fails, a run that reaches it raises
    and posts no comment at all: no partial review is published. *)
Theorem service_error_posts_nothing (re_search : string -> string -> option bool)
  (gh : github) (generate : string -> option string) (mode : string) (pr : nat)
  (lang : string) (cp inc exc : option string) :
  (mode = "files" /\ pr_commits gh <> []
   /\ filter_files re_search inc exc (commit_files gh (last (pr_commits gh) EmptyString)) <> None)
  \/ (mode = "patch" /\ pr_patch gh <> EmptyString) ->
  (forall prompt, generate prompt = None) ->
  exists tr, run_mode re_search gh generate mode pr lang cp inc exc [] = Raised tr
             /\ count_post tr = 0.
Proof.
  intros [[-> [Hc Hf]] | [-> Hp]] Hg.
  - rewrite run_mode_files.
    destruct (filter_files re_search inc exc (commit_files gh (last (pr_commits gh) EmptyString)))
      as [fs|] eqn:E; [|contradiction].
    unfold process_files.
    rewrite (bind_ok _ _ [] (pr_commits gh) [GetPr pr; GetCommits pr]) by reflexivity.
    rewrite (match_nonempty _ _ _ Hc). unfold analyze_commit_files.
    rewrite (bind_ok _ _ _ (commit_files gh (last (pr_commits gh) EmptyString))
               [GetPr pr; GetCommits pr; GetCommitFiles (last (pr_commits gh) EmptyString)])
      by reflexivity.
    rewrite E, (bind_ok _ _ _ fs [GetPr pr; GetCommits pr;
                 GetCommitFiles (last (pr_commits gh) EmptyString)]) by reflexivity.
    rewrite (bind_ok _ _ _ _ _ (collect_files_spec _ _ _ _ _)).
    rewrite generate_post_outcome by apply Hg.
    eexists; split; [reflexivity|].
    rewrite !count_post_app, count_post_fetches. reflexivity.
  - rewrite run_mode_patch. unfold process_patch.
    rewrite (bind_ok _ _ [] (pr_patch gh) [GetPrPatch pr]) by reflexivity.
    apply String.eqb_neq in Hp. rewrite Hp. unfold analyze_patch.
    rewrite generate_post_outcome by apply Hg.
    eexists; split; reflexivity.
Qed.

Lemma service_error_posts_nothing_witness :
  exists tr, run_mode literal_search gh_one_file (fun _ => None) "files" 1 "en" None None None []
             = Raised tr /\ count_post tr = 0.
Proof.
  apply service_error_posts_nothing; [|reflexivity].
  left. split; [reflexivity|]. split; [discriminate|]. vm_compute. discriminate.
Defined.



(** X7: Patch-Mode only fetches the patch, calls the completion service
    and posts comments: it never lists commits or files and never fetches
    file contents. *)
Theorem patch_mode_events_only (gh : github) (generate : string -> option string) (pr : nat)
  (lang : string) (cp : option string) :
  Forall (fun e => patch_mode_event e = true) (trace_of (process_patch gh generate pr lang cp [])).
Proof.
  destruct (pr_patch gh =? EmptyString) eqn:Hp.
  - apply String.eqb_eq in Hp. rewrite process_patch_empty by exact Hp. simpl. auto.
  - apply String.eqb_neq in Hp. rewrite (process_patch_trace gh generate pr lang cp Hp).
    destruct (generate _); simpl; auto.
Qed.

(** X8: when the filter returns, a file is kept exactly when it is in the
    input, the include pattern (if set) matches its filename and the
    exclude pattern (if set) does not. *)
Theorem filter_files_membership (re_search : string -> string -> option bool)
  (inc exc : option string) (files r : list FileChange) :
  filter_files re_search inc exc files = Some r ->
  forall f, In f r <->
    In f files
    /\ (forall p, truthy inc = Some p -> re_search p (filename f) = Some true)
    /\ (forall q, truthy exc = Some q -> re_search q (filename f) = Some false).
Proof.
  unfold filter_files. intros H f.
  assert (Hinc : forall f1, match truthy inc with
                            | Some p => keep_matching re_search (fun m => m) p files
                            | None => Some files end = Some f1 ->
          (In f f1 <-> In f files
                       /\ (forall p, truthy inc = Some p -> re_search p (filename f) = Some true))).
  { intros f1 H1. destruct (truthy inc) as [p|].
    - rewrite (keep_matching_in re_search _ _ _ _ H1 f). split.
      + intros [Hin [m [Em Hm]]]. subst m. split; [exact Hin|]. intros p' Hp'.
        injection Hp' as <-. exact Em.
      + intros [Hin Hp]. split; [exact Hin|]. exists true. split; [now apply Hp | reflexivity].
    - injection H1 as <-. split; [intros Hin; split; [exact Hin | discriminate] | tauto]. }
  destruct (match truthy inc with
            | Some p => keep_matching re_search (fun m => m) p files
            | None => Some files end) as [f1|] eqn:E1; [|discriminate].
  specialize (Hinc f1 eq_refl).
  destruct (truthy exc) as [q|].
  - rewrite (keep_matching_in re_search _ _ _ _ H f), Hinc. split.
    + intros [[Hin Hp] [m [Em Hm]]]. destruct m; [discriminate|].
      split; [exact Hin|]. split; [exact Hp|]. intros q' Hq'. injection Hq' as <-. exact Em.
    + intros [Hin [Hp Hq]]. split; [now split|]. exists false. split; [now apply Hq | reflexivity].
  - injection H as <-. rewrite Hinc. split.
    + intros [Hin Hp]. split; [exact Hin|]. split; [exact Hp | discriminate].
    + tauto.
Qed.

Lemma filter_files_membership_witness :
  In (mkFileChange "a.py" "added")
     [mkFileChange "a.py" "added"; mkFileChange "b.md" "added"]
  /\ (forall p, truthy (Some "py") = Some p -> literal_search p "a.py" = Some true)
  /\ (forall q, truthy (Some "test") = Some q -> literal_search q "a.py" = Some false).
Proof.
  apply (filter_files_membership literal_search (Some "py") (Some "test")
           [mkFileChange "a.py" "added"; mkFileChange "b.md" "added"]
           [mkFileChange "a.py" "added"]); [reflexivity|]. left. reflexivity.
Defined.

(** X9: a pattern on which [re.search] raises makes the filter raise only
    when there is a file to test: an include pattern raises exactly when
    the changed-file list is non-empty, an exclude pattern exactly when
    the include stage leaves some file. *)
Theorem raising_pattern_needs_a_file (re_search : string -> string -> option bool)
  (q : string) (inc exc : option string) (files : list FileChange) :
  (forall s, re_search q s = None) ->
  (truthy inc = Some q -> (filter_files re_search inc exc files = None <-> files <> []))
  /\ (truthy exc = Some q ->
      (filter_files re_search inc exc files = None
       <-> filter_files re_search inc None files <> Some [])).
Proof.
  intros Hq. split.
  - intros Hi. unfold filter_files. rewrite Hi.
    destruct files as [|f fs].
    + simpl. destruct (truthy exc); simpl; split; (discriminate || contradiction).
    + simpl. rewrite Hq. split; [discriminate | reflexivity].
  - intros He. unfold filter_files. rewrite He. simpl truthy. cbv iota.
    destruct (match truthy inc with
              | Some p => keep_matching re_search (fun m => m) p files
              | None => Some files end) as [[|f fs]|].
    + simpl. split; [discriminate | intros Hn; now elim Hn].
    + simpl. rewrite Hq. split; [intros _; discriminate | reflexivity].
    + split; [intros _; discriminate | reflexivity].
Qed.

Lemma raising_pattern_needs_a_file_witness :
  filter_files bracket_literal_engine (Some "rs") (Some "[") [mkFileChange "a.py" "added"] <> None
  /\ filter_files bracket_literal_engine (Some "[") None [mkFileChange "a.py" "added"] = None.
Proof.
  destruct (raising_pattern_needs_a_file bracket_literal_engine "[" (Some "rs") (Some "[")
              [mkFileChange "a.py" "added"] ltac:(reflexivity)) as [_ H2].
  destruct (raising_pattern_needs_a_file bracket_literal_engine "[" (Some "[") None
              [mkFileChange "a.py" "added"] ltac:(reflexivity)) as [H3 _].
  split.
  - intros Hn. apply (proj1 (H2 eq_refl) Hn). vm_compute. reflexivity.
  - apply (proj2 (H3 eq_refl)). discriminate.
Defined.

(** X10: for a fixed language and custom prompt (present or not), the
    prompt determines the reviewed content: different contents never give
    the same prompt. *)
Theorem prompt_determines_content (c1 c2 language : string) (cp : option string) :
  create_review_prompt c1 language cp = create_review_prompt c2 language cp -> c1 = c2.
Proof.
  unfold create_review_prompt. destruct (truthy cp) as [p|]; intros H;
    repeat (apply append_cancel_l in H); eapply append_cancel_r; exact H.
Qed.

Lemma prompt_determines_content_witness :
  create_review_prompt "x = 1" "en" None <> create_review_prompt "x = 2" "en" None.
Proof.
  intros H. apply (prompt_determines_content "x = 1" "x = 2" "en" None) in H. discriminate H.
Defined.
